(** * useFetchedData: a data-fetching React hook

    Shallow embedding of [src/hooks/useFetchedData.js] (the file kept as
    [src/unnamed/part_003]) and of the part of its platform the hook talks
    to: the [useState] cells, the [useEffect] life cycle with an empty
    dependency list, [fetch], [Response.json] and [AbortController].

    The asynchronous function [fetchData] is written in a small monad of
    suspended computations ([Async]); one activation of the hook (one mount
    of the consumer) is a record ([Activation]) stepped by the events the
    event loop can deliver: the awaited promise settles, or the consumer is
    unmounted.  [src/App.js], the consumer, is embedded as the element it
    returns for what the hook gave it at its last render. *)

From Stdlib Require Import String ZArith List Bool.
From ExtLib Require Import Structures.Monad Structures.MonadExc
  Data.Monads.EitherMonad.
Import ListNotations.
Import MonadNotation.

Set Warnings "-register-all".

Local Open Scope string_scope.
Local Open Scope list_scope.
Local Open Scope monad_scope.

(** ** JavaScript values *)

(** The values that travel through the hook: parsed JSON bodies, the
    response object and rejection reasons.  Numbers are the integers the
    Item records carry ([id], [userId]); an error object keeps its [name]
    and [message].  None of them is callable, so a setter never takes its
    argument for an updater function.  The one method the hook calls is
    [json]: [with_json props] is an object that has a [json] function
    besides the data properties [props] (a [Response], or the mock
    [{ json: jest.fn() }] of the tests); no other value has one. *)
Inductive Value : Type :=
| null
| undefined
| boolean (b : bool)
| number (n : Z)
| str (s : string)
| array (items : list Value)
| object (props : list (string * Value))
| with_json (props : list (string * Value))
| Error (name message : string).

(** The outcome of a promise. *)
Inductive Settled : Type :=
| Fulfilled (value : Value)
| Rejected (reason : Value).

(** ** The platform interface *)

(** The signal of the controller created at line 11,
    [abortController.signal]. *)
Inductive AbortSignal : Type :=
| abortController_signal.

(** The second argument of [fetch]. *)
Record RequestInit : Type := mkInit {
  method : option string;
  signal : option AbortSignal
}.

(** A call of [fetch] as the network sees it. *)
Record Request : Type := mkRequest {
  url : string;
  init : RequestInit
}.

(** [fetch] without a [method] option issues a GET. *)
Definition request_method (r : Request) : string :=
  match method (init r) with
  | Some m => m
  | None => "GET"
  end.

(** The two expressions [fetchData] awaits. *)
Inductive Awaitable : Type :=
| fetch (input : string) (options : RequestInit)
| response_json (response : Value).

(** The three [useState] setters. *)
Inductive Dispatch : Type :=
| setData (json : Value)
| setError (reason : Value)
| setLoading (flag : bool).

(** ** Suspended computations *)

(** The body of an [async] function up to its next suspension: it returns,
    throws, calls a state setter and goes on, or awaits a promise and goes on
    with the way it settled. *)
Inductive Async (A : Type) : Type :=
| Return (a : A)
| Throw (reason : Value)
| Call (c : Dispatch) (k : Async A)
| Await (p : Awaitable) (k : Settled -> Async A).

Arguments Return {A} a.
Arguments Throw {A} reason.
Arguments Call {A} c k.
Arguments Await {A} p k.

Fixpoint Async_bind {A B : Type} (m : Async A) (f : A -> Async B) : Async B :=
  match m with
  | Return a => f a
  | Throw e => Throw e
  | Call c k => Call c (Async_bind k f)
  | Await p k => Await p (fun s => Async_bind (k s) f)
  end.

(** [try { m } catch (e) { h e }] *)
Fixpoint Async_catch {A : Type} (m : Async A) (h : Value -> Async A) : Async A :=
  match m with
  | Return a => Return a
  | Throw e => h e
  | Call c k => Call c (Async_catch k h)
  | Await p k => Await p (fun s => Async_catch (k s) h)
  end.

#[global] Instance Monad_Async : Monad Async :=
  {| ret := @Return; bind := @Async_bind |}.

#[global] Instance Exception_Async : MonadExc Value Async :=
  {| raise := @Throw; catch := @Async_catch |}.

(** [try { m } finally { f }]: [f] runs on both exits, and the exit of [m]
    is kept unless [f] throws itself. *)
Fixpoint finally {A : Type} (m : Async A) (f : Async unit) : Async A :=
  match m with
  | Return a => f ;; ret a
  | Throw e => f ;; raise e
  | Call c k => Call c (finally k f)
  | Await p k => Await p (fun s => finally (k s) f)
  end.

(** [await p]: the value of a fulfilled promise, the reason of a rejected
    one thrown at the place of the [await]. *)
Definition await (p : Awaitable) : Async Value :=
  Await p (fun s =>
    match s with
    | Fulfilled v => ret v
    | Rejected e => raise e
    end).

Definition call (c : Dispatch) : Async unit := Call c (ret tt).

(** ** The hook *)

Definition API_URL : string := "https://jsonplaceholder.typicode.com/posts".

(** Whether [v.json] is a function. *)
Definition has_json (v : Value) : bool :=
  match v with
  | with_json _ => true
  | _ => false
  end.

(** What the call [response.json()] throws on a value without a [json]
    function (in the wording of V8, the engine the tests run on). *)
Definition json_TypeError (response : Value) : Value :=
  Error "TypeError"
    match response with
    | null => "Cannot read properties of null (reading 'json')"
    | undefined => "Cannot read properties of undefined (reading 'json')"
    | _ => "response.json is not a function"
    end.

(** The call [response.json()] of line 19: it hands back the promise to
    await, or throws on the spot. *)
Definition call_json (response : Value) : Async Awaitable :=
  if has_json response
  then ret (response_json response)
  else raise (json_TypeError response).

(** Lines 13 to 26. *)
Definition fetchData (s : AbortSignal) : Async unit :=
  finally
    (catch
       (response <- await (fetch API_URL {| method := None; signal := Some s |}) ;;
        body <- call_json response ;;
        json <- await body ;;
        call (setData json))
       (fun error => call (setError error)))
    (call (setLoading false)).

(** What the hook returns, [{ data, error, loading }]. *)
Record HookState : Type := mkState {
  data : Value;
  error : Value;
  loading : bool
}.

(** What an accepted setter call does to the cells: a cell keeps the last
    value its setter was given. *)
Definition dispatch (c : Dispatch) (s : HookState) : HookState :=
  match c with
  | setData v => {| data := v; error := error s; loading := loading s |}
  | setError e => {| data := data s; error := e; loading := loading s |}
  | setLoading b => {| data := data s; error := error s; loading := b |}
  end.

(** One activation: the three cells as the last render of the hook saw
    them, the suspended [fetchData], the calls of [fetch] and of [abort]
    made so far, whether the consumer is still mounted, and the setter
    calls [fetchData] made, accepted or not, in the order they were made. *)
Record Activation : Type := mkActivation {
  cells : HookState;
  task : Async unit;
  requests : list Request;
  abort_calls : nat;
  mounted : bool;
  calls : list Dispatch
}.

(** Runs a computation up to its next [await] (or its end).  Reaching
    [await fetch(..)] is where the request leaves.  React takes a setter
    call of a mounted consumer and renders again; the call of an unmounted
    one is made and dropped, and the cells stay what the last render saw. *)
Fixpoint drive (t : Async unit) (w : Activation) : Activation :=
  match t with
  | Call c k =>
      drive k {| cells := if mounted w then dispatch c (cells w) else cells w;
                 task := task w;
                 requests := requests w; abort_calls := abort_calls w;
                 mounted := mounted w; calls := calls w ++ [c] |}
  | Await (fetch input options) _ =>
      {| cells := cells w; task := t;
         requests := requests w ++ [{| url := input; init := options |}];
         abort_calls := abort_calls w; mounted := mounted w;
         calls := calls w |}
  | Await (response_json _) _ | Return _ | Throw _ =>
      {| cells := cells w; task := t; requests := requests w;
         abort_calls := abort_calls w; mounted := mounted w;
         calls := calls w |}
  end.

(** The first render and the effect: the cells get their initial values
    (lines 6 to 8), the effect creates the controller and calls [fetchData]
    (lines 11 and 28). *)
Definition mount : Activation :=
  drive (fetchData abortController_signal)
    {| cells := {| data := null; error := null; loading := true |};
       task := Return tt; requests := []; abort_calls := 0;
       mounted := true; calls := [] |}.

(** The clean-up of the effect, lines 30 to 32. *)
Definition cleanup (w : Activation) : Activation :=
  {| cells := cells w; task := task w; requests := requests w;
     abort_calls := S (abort_calls w); mounted := false; calls := calls w |}.

(** What the event loop delivers to an activation. *)
Inductive Event : Type :=
| Settle (s : Settled)
| Unmount.

(** A settlement resumes [fetchData] when it is suspended at an [await] and
    is lost otherwise; React runs the clean-up of a mounted consumer once. *)
Definition step (w : Activation) (ev : Event) : Activation :=
  match ev with
  | Settle s =>
      match task w with
      | Await _ k => drive (k s) w
      | _ => w
      end
  | Unmount => if mounted w then cleanup w else w
  end.

Definition exec (w : Activation) (evs : list Event) : Activation :=
  fold_left step evs w.

(** What the hook returned at its last render, line 35: React runs the
    hook again after every setter call it takes and never after the
    unmount, so this is the object the consumer holds last. *)
Definition useFetchedData (w : Activation) : HookState := cells w.

(** ** Vocabulary of the properties *)

(** The reason [fetch] rejects with once its signal is aborted. *)
Definition AbortError : Value := Error "AbortError" "The operation was aborted.".

(** A response object as far as a caller could look at its status line. *)
Definition Response (status : Z) : Value :=
  with_json [("ok", boolean ((200 <=? status)%Z && (status <=? 299)%Z));
             ("status", number status)].

(** The payload of the test suite, [mockedData]. *)
Definition mockedData : Value :=
  array [object [("body", str "mocked body"); ("id", number 1);
                 ("title", str "mock title"); ("userId", number 1)]].

Definition mockedError : Value := Error "Error" "mocked error".

Definition initial_state : HookState :=
  {| data := null; error := null; loading := true |}.

(** The settlements among the events, in the order of delivery. *)
Fixpoint outcomes (evs : list Event) : list Settled :=
  match evs with
  | [] => []
  | Settle s :: evs' => s :: outcomes evs'
  | Unmount :: evs' => outcomes evs'
  end.

(** The events delivered while the consumer is mounted: those before the
    first unmount. *)
Fixpoint live (evs : list Event) : list Event :=
  match evs with
  | [] => []
  | Unmount :: _ => []
  | Settle s :: evs' => Settle s :: live evs'
  end.

(** Whether the consumer is unmounted somewhere in the events. *)
Fixpoint deactivated (evs : list Event) : bool :=
  match evs with
  | [] => false
  | Unmount :: _ => true
  | Settle _ :: evs' => deactivated evs'
  end.

(** The request has settled once [fetch] rejected, or [fetch] fulfilled
    with a value that has no [json] to call, or [fetch] fulfilled and the
    parse of the body settled either way. *)
Definition request_settled (os : list Settled) : bool :=
  match os with
  | [] => false
  | Rejected _ :: _ => true
  | Fulfilled response :: os' =>
      if has_json response
      then match os' with
           | [] => false
           | _ :: _ => true
           end
      else true
  end.

(** The arguments of the [setLoading] calls among the setter calls. *)
Fixpoint loading_writes (cs : list Dispatch) : list bool :=
  match cs with
  | [] => []
  | setLoading b :: cs' => b :: loading_writes cs'
  | _ :: cs' => loading_writes cs'
  end.

(** The reading under which an abort would silence [fetchData]: when the
    consumer is unmounted while [fetch] is pending, no setter is called
    after the clean-up, whatever is delivered later. *)
Definition no_update_after_cleanup : Prop :=
  forall evs evs' : list Event,
    outcomes evs = [] ->
    calls (exec mount (evs ++ Unmount :: evs')) =
    calls (exec mount (evs ++ [Unmount])).

(** ** The four stages of an activation *)

(** Where [fetchData] stands: suspended at the first [await], suspended at
    the second one with the response in hand, or finished through the [try]
    block or through the [catch] block. *)
Inductive Stage : Type :=
| Fetching
| Parsing (response : Value)
| Succeeded (json : Value)
| Failed (reason : Value).

Definition settle_stage (st : Stage) (s : Settled) : Stage :=
  match st, s with
  | Fetching, Fulfilled response =>
      if has_json response
      then Parsing response
      else Failed (json_TypeError response)
  | Parsing _, Fulfilled json => Succeeded json
  | Fetching, Rejected e | Parsing _, Rejected e => Failed e
  | _, _ => st
  end.

Definition stage_after (os : list Settled) : Stage :=
  fold_left settle_stage os Fetching.

Definition stage_cells (st : Stage) : HookState :=
  match st with
  | Fetching | Parsing _ => initial_state
  | Succeeded json => {| data := json; error := null; loading := false |}
  | Failed e => {| data := null; error := e; loading := false |}
  end.

Definition stage_calls (st : Stage) : list Dispatch :=
  match st with
  | Fetching | Parsing _ => []
  | Succeeded json => [setData json; setLoading false]
  | Failed e => [setError e; setLoading false]
  end.

(** [fetchData] at its second [await]; what follows the [await] does not
    depend on the response. *)
Definition parsing_task (response : Value) : Async unit :=
  match task (step mount (Settle (Fulfilled (with_json [])))) with
  | Await _ k => Await (response_json response) k
  | t => t
  end.

Definition stage_task (st : Stage) : Async unit :=
  match st with
  | Fetching => task mount
  | Parsing response => parsing_task response
  | Succeeded _ | Failed _ => Return tt
  end.

(** The activation whose last render saw the stage [seen] and whose
    [fetchData] stands at [st], mounted or not. *)
Definition at_stage (seen st : Stage) (m : bool) : Activation :=
  {| cells := stage_cells seen; task := stage_task st;
     requests := requests mount;
     abort_calls := if m then 0 else 1;
     mounted := m; calls := stage_calls st |}.

(** The shapes of a list of settlements, and the stage of each. *)
Inductive Shape : list Settled -> Stage -> bool -> Prop :=
| nothing_yet :
    Shape [] Fetching false
| body_awaited response :
    has_json response = true ->
    Shape [Fulfilled response] (Parsing response) false
| body_parsed response json rest :
    has_json response = true ->
    Shape (Fulfilled response :: Fulfilled json :: rest) (Succeeded json) true
| parse_rejected response e rest :
    has_json response = true ->
    Shape (Fulfilled response :: Rejected e :: rest) (Failed e) true
| json_missing response rest :
    has_json response = false ->
    Shape (Fulfilled response :: rest) (Failed (json_TypeError response)) true
| fetch_rejected e rest :
    Shape (Rejected e :: rest) (Failed e) true.

(** ** The consumer, [src/App.js] *)

(** What [App] can throw while it builds its element: a call of something
    that is no function, or a member read on [null] or [undefined]. *)
Inductive TypeError : Type :=
| not_a_function
| cannot_read_properties (target : Value).

(** A JavaScript expression of [App]: it throws or it has a value. *)
Definition Completion (A : Type) : Type := (TypeError + A)%type.

#[global] Instance Monad_Completion : Monad Completion :=
  Monad_either TypeError.

(** The members [App] reads. *)
Inductive Member : Type :=
| member_id
| member_title
| member_message.

Definition member_name (m : Member) : string :=
  match m with
  | member_id => "id"
  | member_title => "title"
  | member_message => "message"
  end.

(** The own property of an object (an object has each key once); a missing
    key reads as [undefined]. *)
Fixpoint own_property (name : string) (props : list (string * Value)) : Value :=
  match props with
  | [] => undefined
  | (k, v) :: props' => if String.eqb k name then v else own_property name props'
  end.

(** [v.m]: reading a member of [null] or [undefined] throws; primitives and
    arrays have none of the three members; an error object has its
    [message]. *)
Definition get (v : Value) (m : Member) : Completion Value :=
  match v with
  | null | undefined => inl (cannot_read_properties v)
  | object props | with_json props =>
      inr (own_property (member_name m) props)
  | Error _ msg =>
      inr match m with
          | member_message => str msg
          | member_id | member_title => undefined
          end
  | boolean _ | number _ | str _ | array _ => inr undefined
  end.

(** The truthiness [&&] tests. *)
Definition truthy (v : Value) : bool :=
  match v with
  | null | undefined => false
  | boolean b => b
  | number n => negb (n =? 0)%Z
  | str s => negb (String.eqb s "")
  | array _ | object _ | with_json _ | Error _ _ => true
  end.

(** What JSX builds: a JavaScript value put in child position, an element
    with its children, or an array of nodes.  [key] is the value written in
    the [key] attribute, [undefined] when there is none. *)
Inductive ReactNode : Type :=
| js (v : Value)
| element (tag : string) (className : option string) (key : Value)
          (children : list ReactNode)
| nodes (items : list ReactNode).

(** [items.map(f)] on the items of an array, left to right; the first call
    that throws ends the loop. *)
Fixpoint map_items (f : Value -> Completion ReactNode) (items : list Value)
  : Completion (list ReactNode) :=
  match items with
  | [] => ret []
  | item :: items' =>
      node <- f item ;;
      rest <- map_items f items' ;;
      ret (node :: rest)
  end.

(** [v.map(f)]: only an array has a [map] to call. *)
Definition map_method (v : Value) (f : Value -> Completion ReactNode)
  : Completion (list ReactNode) :=
  match v with
  | array items => map_items f items
  | null | undefined => inl (cannot_read_properties v)
  | boolean _ | number _ | str _ | object _ | with_json _ | Error _ _ =>
      inl not_a_function
  end.

(** Line 14, [<li key={post.id}>{post.title}</li>]. *)
Definition post_item (post : Value) : Completion ReactNode :=
  key <- get post member_id ;;
  title <- get post member_title ;;
  ret (element "li" None key [js title]).

(** Lines 7 to 19, the element [App] returns for what the hook gave it. *)
Definition App_view (s : HookState) : Completion ReactNode :=
  let '{| data := data; error := error; loading := loading |} := s in
  loading_text <-
    (if loading
     then ret (element "p" None undefined [js (str "Loading...")])
     else ret (js (boolean false))) ;;
  error_text <-
    (if truthy error
     then message <- get error member_message ;;
          ret (element "p" None undefined [js (str "Error: "); js message])
     else ret (js error)) ;;
  list <-
    (if truthy data
     then items <- map_method data post_item ;;
          ret (element "ul" None undefined [nodes items])
     else ret (js data)) ;;
  ret (element "div" (Some "App") undefined [loading_text; error_text; list]).

(** What [App] returned at its last render in an activation: line 5 takes
    what the hook returned. *)
Definition App (w : Activation) : Completion ReactNode :=
  App_view (useFetchedData w).

(** The tags of the elements among the children of a node, in order: of the
    three sections of [App], the ones that are there. *)
Definition element_tag (n : ReactNode) : list string :=
  match n with
  | element tag _ _ _ => [tag]
  | js _ | nodes _ => []
  end.

Definition sections (n : ReactNode) : list string :=
  match n with
  | element _ _ _ children => flat_map element_tag children
  | js _ | nodes _ => []
  end.

(** Neither [null] nor [undefined]. *)
Definition has_members (v : Value) : bool :=
  match v with
  | null | undefined => false
  | _ => true
  end.

(** The payloads [App] can build its list from: a falsy one (no list is
    built) or an array without [null] and [undefined] among its items. *)
Definition renderable (data : Value) : bool :=
  negb (truthy data) ||
  match data with
  | array items => forallb has_members items
  | _ => false
  end.

(** A member of a value that has members. *)
Definition read (v : Value) (m : Member) : Value :=
  match get v m with
  | inr x => x
  | inl _ => undefined
  end.

(** The [li] of a post that is neither [null] nor [undefined]. *)
Definition li_of (post : Value) : ReactNode :=
  element "li" None (read post member_id) [js (read post member_title)].

Definition is_array (v : Value) : bool :=
  match v with
  | array _ => true
  | _ => false
  end.

(** Whether an expression had a value. *)
Definition returns {A : Type} (c : Completion A) : bool :=
  match c with
  | inr _ => true
  | inl _ => false
  end.

(** The element of [App] around its three children. *)
Definition App_div (loading_text error_text list : ReactNode) : ReactNode :=
  element "div" (Some "App") undefined [loading_text; error_text; list].

Definition Loading_p : ReactNode :=
  element "p" None undefined [js (str "Loading...")].

Definition Error_p (message : Value) : ReactNode :=
  element "p" None undefined [js (str "Error: "); js message].

Definition posts_ul (items : list ReactNode) : ReactNode :=
  element "ul" None undefined [nodes items].

(** The three children of [App], each from its own field. *)
Definition loading_section (loading : bool) : ReactNode :=
  if loading then Loading_p else js (boolean false).

Definition error_section (error : Value) : ReactNode :=
  if truthy error then Error_p (read error member_message) else js error.

Definition list_section (data : Value) : ReactNode :=
  if truthy data
  then posts_ul match data with
                | array items => map li_of items
                | _ => []
                end
  else js data.

(** ** The run of an activation, stage by stage *)

Lemma mount_at_stage : mount = at_stage Fetching Fetching true.
Proof. reflexivity. Qed.

(** A settlement delivered to a mounted consumer moves [fetchData] and the
    rendered state to the next stage together. *)
Lemma step_settle_mounted (st : Stage) (s : Settled) :
  step (at_stage st st true) (Settle s) =
  at_stage (settle_stage st s) (settle_stage st s) true.
Proof.
  destruct st as [| response | json | e], s as [v | e']; try reflexivity.
  destruct v; reflexivity.
Qed.

(** Delivered after the unmount it moves [fetchData] alone. *)
Lemma step_settle_unmounted (seen st : Stage) (s : Settled) :
  step (at_stage seen st false) (Settle s) =
  at_stage seen (settle_stage st s) false.
Proof.
  destruct st as [| response | json | e], s as [v | e']; try reflexivity.
  destruct v; reflexivity.
Qed.

(** The clean-up leaves both stages alone. *)
Lemma step_unmount (seen st : Stage) (m : bool) :
  step (at_stage seen st m) Unmount = at_stage seen st false.
Proof. destruct m; reflexivity. Qed.

Lemma exec_unmounted (evs : list Event) :
  forall seen st : Stage,
    exec (at_stage seen st false) evs =
    at_stage seen (fold_left settle_stage (outcomes evs) st) false.
Proof.
  induction evs as [| [s |] evs IH]; intros seen st; cbn [exec fold_left outcomes].
  - reflexivity.
  - rewrite step_settle_unmounted. apply IH.
  - rewrite step_unmount. apply IH.
Qed.

Lemma exec_mounted (evs : list Event) :
  forall st : Stage,
    exec (at_stage st st true) evs =
    at_stage (fold_left settle_stage (outcomes (live evs)) st)
             (fold_left settle_stage (outcomes evs) st)
             (negb (deactivated evs)).
Proof.
  induction evs as [| [s |] evs IH]; intros st;
    cbn [exec fold_left outcomes live deactivated negb].
  - reflexivity.
  - rewrite step_settle_mounted. apply IH.
  - rewrite step_unmount. apply exec_unmounted.
Qed.

(** Every state an activation reaches is fixed by the settlements
    delivered so far: those delivered while mounted give the rendered
    state, all of them give the place of [fetchData] and its setter calls;
    unmounting only clears [mounted] and counts one [abort]. *)
Lemma exec_mount (evs : list Event) :
  exec mount evs =
  at_stage (stage_after (outcomes (live evs))) (stage_after (outcomes evs))
           (negb (deactivated evs)).
Proof. rewrite mount_at_stage. apply exec_mounted. Qed.

Lemma hook_returns (evs : list Event) :
  useFetchedData (exec mount evs) =
  stage_cells (stage_after (outcomes (live evs))).
Proof. unfold useFetchedData. now rewrite exec_mount. Qed.

Lemma calls_made (evs : list Event) :
  calls (exec mount evs) = stage_calls (stage_after (outcomes evs)).
Proof. now rewrite exec_mount. Qed.

Lemma requests_made (evs : list Event) :
  requests (exec mount evs) = requests mount.
Proof. now rewrite exec_mount. Qed.

Lemma task_reached (evs : list Event) :
  task (exec mount evs) = stage_task (stage_after (outcomes evs)).
Proof. now rewrite exec_mount. Qed.

Lemma aborts_made (evs : list Event) :
  abort_calls (exec mount evs) = if deactivated evs then 1 else 0.
Proof. rewrite exec_mount. cbn. now destruct (deactivated evs). Qed.

(** ** Events, settlements and the live part of a run *)

Lemma outcomes_app (evs evs' : list Event) :
  outcomes (evs ++ evs') = outcomes evs ++ outcomes evs'.
Proof.
  induction evs as [| [s |] evs IH]; cbn; [reflexivity | now f_equal | exact IH].
Qed.

Lemma deactivated_app (evs evs' : list Event) :
  deactivated (evs ++ evs') = deactivated evs || deactivated evs'.
Proof.
  induction evs as [| [s |] evs IH]; cbn; auto.
Qed.

Lemma live_app (evs evs' : list Event) :
  live (evs ++ evs') =
  live evs ++ (if deactivated evs then [] else live evs').
Proof.
  induction evs as [| [s |] evs IH]; cbn; [reflexivity | now f_equal | reflexivity].
Qed.

Lemma live_mounted (evs : list Event) :
  deactivated evs = false -> live evs = evs.
Proof.
  induction evs as [| [s |] evs IH]; cbn; intros H;
    [reflexivity | now rewrite IH | discriminate].
Qed.

Lemma live_live (evs : list Event) : live (live evs) = live evs.
Proof. induction evs as [| [s |] evs IH]; cbn; [| now f_equal |]; reflexivity. Qed.

(** The settlements delivered while mounted come first. *)
Lemma outcomes_live (evs : list Event) :
  exists later, outcomes evs = outcomes (live evs) ++ later.
Proof.
  induction evs as [| [s |] evs [later IH]]; cbn.
  - now exists [].
  - exists later. now rewrite IH.
  - now exists (outcomes evs).
Qed.

Lemma outcomes_settle (os : list Settled) : outcomes (map Settle os) = os.
Proof. induction os as [| o os IH]; cbn; [reflexivity | now f_equal]. Qed.

Lemma live_settle (os : list Settled) : live (map Settle os) = map Settle os.
Proof. induction os as [| o os IH]; cbn; [reflexivity | now f_equal]. Qed.

(** ** The stage read off the settlements *)

(** The two final stages absorb every later settlement. *)
Lemma succeeded_final (os : list Settled) (json : Value) :
  fold_left settle_stage os (Succeeded json) = Succeeded json.
Proof. induction os as [| o os IH]; [reflexivity | destruct o; exact IH]. Qed.

Lemma failed_final (os : list Settled) (e : Value) :
  fold_left settle_stage os (Failed e) = Failed e.
Proof. induction os as [| o os IH]; [reflexivity | destruct o; exact IH]. Qed.

Lemma stage_after_app (os os' : list Settled) :
  stage_after (os ++ os') = fold_left settle_stage os' (stage_after os).
Proof. apply fold_left_app. Qed.

Lemma stage_after_success (response json : Value) (rest : list Settled) :
  has_json response = true ->
  stage_after (Fulfilled response :: Fulfilled json :: rest) = Succeeded json.
Proof.
  intros Hj. unfold stage_after. cbn. rewrite Hj. apply succeeded_final.
Qed.

Lemma stage_after_fetch_rejected (e : Value) (rest : list Settled) :
  stage_after (Rejected e :: rest) = Failed e.
Proof. apply failed_final. Qed.

Lemma stage_after_parse_rejected (response e : Value) (rest : list Settled) :
  has_json response = true ->
  stage_after (Fulfilled response :: Rejected e :: rest) = Failed e.
Proof.
  intros Hj. unfold stage_after. cbn. rewrite Hj. apply failed_final.
Qed.

Lemma stage_after_no_json (response : Value) (rest : list Settled) :
  has_json response = false ->
  stage_after (Fulfilled response :: rest) = Failed (json_TypeError response).
Proof.
  intros Hj. unfold stage_after. cbn. rewrite Hj. apply failed_final.
Qed.

Lemma shape_of (os : list Settled) :
  Shape os (stage_after os) (request_settled os).
Proof.
  destruct os as [| [response | e] os]; cbn [request_settled].
  - constructor.
  - destruct (has_json response) eqn:Hj.
    + destruct os as [| [json | e] os].
      * unfold stage_after. cbn. rewrite Hj. now constructor.
      * rewrite (stage_after_success _ _ _ Hj). now constructor.
      * rewrite (stage_after_parse_rejected _ _ _ Hj). now constructor.
    + rewrite (stage_after_no_json _ _ Hj). now constructor.
  - rewrite stage_after_fetch_rejected. constructor.
Qed.

Lemma stage_after_pending (os : list Settled) :
  request_settled os = false ->
  stage_after os = Fetching \/ exists response, stage_after os = Parsing response.
Proof.
  intros Hs. destruct (shape_of os); try discriminate Hs; eauto.
Qed.

Lemma stage_after_settled (os : list Settled) :
  request_settled os = true ->
  (exists json, stage_after os = Succeeded json) \/
  (exists e, stage_after os = Failed e).
Proof.
  intros Hs. destruct (shape_of os); try discriminate Hs; eauto.
Qed.

(** A settled request stays settled, at the same stage. *)
Lemma settled_final (os later : list Settled) :
  request_settled os = true ->
  stage_after (os ++ later) = stage_after os.
Proof.
  intros Hs. rewrite stage_after_app.
  destruct (stage_after_settled _ Hs) as [[json ->] | [e ->]];
    [apply succeeded_final | apply failed_final].
Qed.

Lemma settled_app (os later : list Settled) :
  request_settled os = true -> request_settled (os ++ later) = true.
Proof.
  destruct os as [| [response | e] os]; cbn; try discriminate; auto.
  destruct (has_json response); auto.
  destruct os; cbn; [discriminate | auto].
Qed.

Lemma unsettled_prefix (os later : list Settled) :
  request_settled (os ++ later) = false -> request_settled os = false.
Proof.
  intros H. destruct (request_settled os) eqn:Hs; [| reflexivity].
  now rewrite (settled_app _ later Hs) in H.
Qed.

Lemma loading_of_stage (os : list Settled) :
  loading (stage_cells (stage_after os)) = negb (request_settled os).
Proof. destruct (shape_of os); reflexivity. Qed.

Lemma loading_writes_of_stage (os : list Settled) :
  loading_writes (stage_calls (stage_after os)) =
  if request_settled os then [false] else [].
Proof. destruct (shape_of os); reflexivity. Qed.

Lemma setError_called (st : Stage) (E : Value) :
  In (setError E) (stage_calls st) -> st = Failed E.
Proof.
  destruct st; cbn; intros H; try contradiction;
    repeat (destruct H as [H | H]; try discriminate; try contradiction).
  now injection H as ->.
Qed.

(** What the hook returned last, read off the settlements. *)
Lemma hook_while_pending (evs : list Event) :
  request_settled (outcomes evs) = false ->
  useFetchedData (exec mount evs) = initial_state.
Proof.
  intros Hs. rewrite hook_returns.
  destruct (outcomes_live evs) as [later Hl]. rewrite Hl in Hs.
  apply unsettled_prefix in Hs.
  destruct (stage_after_pending _ Hs) as [-> | [response ->]]; reflexivity.
Qed.

Lemma hook_after_success
    (evs : list Event) (response P : Value) (rest : list Settled) :
  has_json response = true ->
  outcomes (live evs) = Fulfilled response :: Fulfilled P :: rest ->
  useFetchedData (exec mount evs) =
  {| data := P; error := null; loading := false |}.
Proof.
  intros Hj Hos. now rewrite hook_returns, Hos, stage_after_success.
Qed.

Lemma hook_after_failure (evs : list Event) (E : Value) (rest : list Settled) :
  outcomes (live evs) = Rejected E :: rest \/
  (exists response,
     has_json response = true /\
     outcomes (live evs) = Fulfilled response :: Rejected E :: rest) ->
  useFetchedData (exec mount evs) =
  {| data := null; error := E; loading := false |}.
Proof.
  intros [Hos | (response & Hj & Hos)]; rewrite hook_returns, Hos.
  - now rewrite stage_after_fetch_rejected.
  - now rewrite stage_after_parse_rejected.
Qed.

(** ** The test suite of the hook, replayed *)

(** "should return the initial values for data, error and loading" *)
Example test_initial_values : useFetchedData mount = initial_state.
Proof. reflexivity. Qed.

(** "should return data": [fetch] is mocked to resolve to an object whose
    [json] resolves to [mockedData]. *)
Example test_should_return_data :
  useFetchedData
    (exec mount [Settle (Fulfilled (with_json [])); Settle (Fulfilled mockedData)]) =
  {| data := mockedData; error := null; loading := false |}.
Proof. reflexivity. Qed.

(** "should return the Error": [fetch] is mocked to reject. *)
Example test_should_return_the_error :
  error (useFetchedData (exec mount [Settle (Rejected mockedError)])) =
  mockedError.
Proof. reflexivity. Qed.

(** "should abort the fetch request" *)
Example test_should_abort_on_unmount :
  abort_calls (exec mount [Unmount]) = 1.
Proof. reflexivity. Qed.

(** ** Initial state *)

(** C2: as long as the request has not settled (whatever else happened, a
    fulfilled [fetch] whose body is still being parsed and an unmount
    included), a render of the hook returns exactly
    [data = null], [error = null], [loading = true]. *)
Theorem initial_state_until_settled (evs : list Event) :
  request_settled (outcomes evs) = false ->
  useFetchedData (exec mount evs) =
  {| data := null; error := null; loading := true |}.
Proof. intros Hpending. now rewrite (hook_while_pending _ Hpending). Qed.

Lemma initial_state_until_settled_witness :
  request_settled (outcomes [Settle (Fulfilled (Response 200))]) = false /\
  useFetchedData (exec mount [Settle (Fulfilled (Response 200))]) =
  {| data := null; error := null; loading := true |}.
Proof.
  split; [reflexivity |].
  apply (initial_state_until_settled [Settle (Fulfilled (Response 200))]).
  reflexivity.
Defined.

(** ** Success *)

(** C3: when, while the consumer is mounted, [fetch] fulfils with a
    response that has a [json] to call and the body parses to [P], the
    state is exactly [data = P], [error = null], [loading = false] from the
    delivery of the parsed body on, whatever comes after it (later
    settlements, the unmount). *)
Theorem success_state (evs : list Event) (response P : Value) (rest : list Settled) :
  has_json response = true ->
  outcomes (live evs) = Fulfilled response :: Fulfilled P :: rest ->
  useFetchedData (exec mount evs) =
  {| data := P; error := null; loading := false |}.
Proof.
  intros Hj Hos. rewrite hook_returns, Hos.
  now rewrite (stage_after_success _ _ _ Hj).
Qed.

Lemma success_state_witness :
  has_json (Response 200) = true /\
  outcomes (live [Settle (Fulfilled (Response 200)); Settle (Fulfilled mockedData);
                  Unmount]) =
  [Fulfilled (Response 200); Fulfilled mockedData] /\
  useFetchedData
    (exec mount [Settle (Fulfilled (Response 200)); Settle (Fulfilled mockedData);
                 Unmount]) =
  {| data := mockedData; error := null; loading := false |}.
Proof.
  split; [reflexivity |]. split; [reflexivity |].
  apply (success_state _ (Response 200) mockedData []); reflexivity.
Defined.

(** ** Failure *)

(** C4: when, while the consumer is mounted, the [fetch] promise or the
    body-parse promise rejects with [E], the state is exactly
    [data = null], [error = E] (the rejection reason itself, whatever value
    it is), [loading = false] from then on. *)
Theorem failure_state (evs : list Event) (E : Value) (rest : list Settled) :
  outcomes (live evs) = Rejected E :: rest \/
  (exists response,
     has_json response = true /\
     outcomes (live evs) = Fulfilled response :: Rejected E :: rest) ->
  useFetchedData (exec mount evs) =
  {| data := null; error := E; loading := false |}.
Proof.
  intros [Hos | (response & Hj & Hos)]; rewrite hook_returns, Hos.
  - now rewrite stage_after_fetch_rejected.
  - now rewrite (stage_after_parse_rejected _ _ _ Hj).
Qed.

Lemma failure_state_witness :
  (outcomes (live [Settle (Rejected mockedError)]) = Rejected mockedError :: [] \/
   (exists response,
      has_json response = true /\
      outcomes (live [Settle (Rejected mockedError)]) =
      Fulfilled response :: Rejected mockedError :: [])) /\
  useFetchedData (exec mount [Settle (Rejected mockedError)]) =
  {| data := null; error := mockedError; loading := false |}.
Proof.
  split; [left; reflexivity |].
  apply (failure_state [Settle (Rejected mockedError)] mockedError []).
  left. reflexivity.
Defined.

(** ** The loading flag *)

(** C5: [loading] starts [true]; over a whole activation [setLoading] is
    called with [false] and nothing else, not at all while the request is
    unsettled and exactly once when it has settled, by success or by
    failure; the flag the hook returns is [false] exactly when the request
    settled while the consumer was mounted, and never goes back to
    [true]. *)
Theorem loading_cleared_once (evs evs' : list Event) :
  loading (useFetchedData mount) = true /\
  loading_writes (calls (exec mount evs)) =
    (if request_settled (outcomes evs) then [false] else []) /\
  loading (useFetchedData (exec mount evs)) =
    negb (request_settled (outcomes (live evs))) /\
  implb (loading (useFetchedData (exec mount (evs ++ evs'))))
        (loading (useFetchedData (exec mount evs))) = true.
Proof.
  split; [reflexivity |].
  rewrite calls_made, !hook_returns, !loading_of_stage, loading_writes_of_stage.
  repeat split.
  rewrite live_app, outcomes_app.
  destruct (request_settled (outcomes (live evs))) eqn:Hs; cbn.
  - now rewrite (settled_app _ _ Hs).
  - apply implb_true_r.
Qed.

(** ** Cancellation *)

(** C6: [abort] has not been called while the consumer is mounted, and has
    been called exactly once from the unmount on, at whatever point of the
    request the unmount comes (also before anything has settled) and
    whatever follows it. *)
Theorem abort_once_on_unmount (evs evs' : list Event) :
  abort_calls (exec mount evs) = (if deactivated evs then 1 else 0) /\
  abort_calls (exec mount (evs ++ Unmount :: evs')) = 1.
Proof.
  rewrite !aborts_made, deactivated_app. cbn. rewrite orb_true_r.
  split; reflexivity.
Qed.

(** ** The request *)

(** C7: at every point of an activation exactly one request has been
    started; it is a GET and it goes to [API_URL]. *)
Theorem single_get_request (evs : list Event) :
  exists r : Request,
    requests (exec mount evs) = [r] /\
    request_method r = "GET" /\
    url r = API_URL.
Proof. rewrite requests_made. eexists. repeat split. Qed.

(** ** Failure is terminal *)

(** C8: once the [catch] branch has set [error] to [E] (it called
    [setError E] while the consumer was mounted), whatever happens
    afterwards no request is added to the single one of the activation, no
    setter is called again, [data] stays [null] and [error] stays [E]. *)
Theorem failure_is_terminal (evs evs' : list Event) (E : Value) :
  In (setError E) (calls (exec mount (live evs))) ->
  requests (exec mount (evs ++ evs')) = requests (exec mount evs) /\
  length (requests (exec mount (evs ++ evs'))) = 1 /\
  calls (exec mount (evs ++ evs')) = calls (exec mount evs) /\
  data (useFetchedData (exec mount (evs ++ evs'))) = null /\
  error (useFetchedData (exec mount (evs ++ evs'))) = E.
Proof.
  rewrite !calls_made, !requests_made, hook_returns.
  intros Hcalled. apply setError_called in Hcalled.
  assert (Hlive : forall later,
             stage_after (outcomes (live evs) ++ later) = Failed E).
  { intros later. rewrite stage_after_app, Hcalled. apply failed_final. }
  destruct (outcomes_live evs) as [later Hevs].
  rewrite live_app, !outcomes_app, Hevs, <- app_assoc, !Hlive.
  repeat split.
Qed.

Lemma failure_is_terminal_witness :
  In (setError mockedError)
     (calls (exec mount (live [Settle (Rejected mockedError)]))) /\
  (requests (exec mount ([Settle (Rejected mockedError)] ++
                         [Settle (Fulfilled mockedData); Unmount])) =
     requests (exec mount [Settle (Rejected mockedError)]) /\
   length (requests (exec mount ([Settle (Rejected mockedError)] ++
                                 [Settle (Fulfilled mockedData); Unmount]))) = 1 /\
   calls (exec mount ([Settle (Rejected mockedError)] ++
                      [Settle (Fulfilled mockedData); Unmount])) =
     calls (exec mount [Settle (Rejected mockedError)]) /\
   data (useFetchedData
           (exec mount ([Settle (Rejected mockedError)] ++
                        [Settle (Fulfilled mockedData); Unmount]))) = null /\
   error (useFetchedData
            (exec mount ([Settle (Rejected mockedError)] ++
                         [Settle (Fulfilled mockedData); Unmount]))) = mockedError).
Proof.
  split; [left; reflexivity |].
  apply (failure_is_terminal [Settle (Rejected mockedError)]
           [Settle (Fulfilled mockedData); Unmount] mockedError).
  left. reflexivity.
Defined.

(** ** Payload and failure exclude each other *)

(** C9: in every state an activation reaches, [data] or [error] is [null]:
    the two are never set together. *)
Theorem data_error_exclusive (evs : list Event) :
  data (useFetchedData (exec mount evs)) = null \/
  error (useFetchedData (exec mount evs)) = null.
Proof.
  rewrite hook_returns.
  destruct (stage_after (outcomes (live evs))); cbn; auto.
Qed.

(** ** The status of the response *)

Lemma lived_prefix (evs : list Event) (o1 o2 : Settled) (rest : list Settled) :
  outcomes evs = o1 :: o2 :: rest ->
  outcomes (live evs) = [] \/
  outcomes (live evs) = [o1] \/
  exists rest', outcomes (live evs) = o1 :: o2 :: rest'.
Proof.
  intros Hos. destruct (outcomes_live evs) as [later Hl]. rewrite Hos in Hl.
  destruct (outcomes (live evs)) as [| a [| b l]]; cbn in Hl; auto.
  - injection Hl as <- _. auto.
  - injection Hl as <- <- _. eauto.
Qed.

(** C10: a fulfilled [fetch] is a success whatever the status of the
    response: for every status code, once the body has parsed to [P] the
    setters called are [setData P] and [setLoading false] and nothing else,
    and [error] is [null]; the hook returns [data = P] as soon as the body
    has arrived while the consumer is mounted (and its initial state when
    the consumer was unmounted before). *)
Theorem status_not_inspected
    (status : Z) (evs : list Event) (P : Value) (rest : list Settled) :
  outcomes evs = Fulfilled (Response status) :: Fulfilled P :: rest ->
  calls (exec mount evs) = [setData P; setLoading false] /\
  error (useFetchedData (exec mount evs)) = null /\
  useFetchedData (exec mount evs) =
  (if request_settled (outcomes (live evs))
   then {| data := P; error := null; loading := false |}
   else initial_state).
Proof.
  intros Hos. rewrite calls_made, hook_returns, Hos.
  assert (Hj : has_json (Response status) = true) by reflexivity.
  rewrite (stage_after_success _ P rest Hj).
  destruct (lived_prefix _ _ _ _ Hos) as [-> | [-> | [rest' ->]]].
  - repeat split.
  - repeat split.
  - rewrite (stage_after_success _ P rest' Hj). repeat split.
Qed.

Lemma status_not_inspected_witness :
  outcomes [Settle (Fulfilled (Response 404)); Settle (Fulfilled mockedData)] =
  [Fulfilled (Response 404); Fulfilled mockedData] /\
  (calls (exec mount [Settle (Fulfilled (Response 404));
                      Settle (Fulfilled mockedData)]) =
     [setData mockedData; setLoading false] /\
   error (useFetchedData
            (exec mount [Settle (Fulfilled (Response 404));
                         Settle (Fulfilled mockedData)])) = null /\
   useFetchedData (exec mount [Settle (Fulfilled (Response 404));
                               Settle (Fulfilled mockedData)]) =
   (if request_settled
         (outcomes (live [Settle (Fulfilled (Response 404));
                          Settle (Fulfilled mockedData)]))
    then {| data := mockedData; error := null; loading := false |}
    else initial_state)).
Proof.
  split; [reflexivity |].
  apply (status_not_inspected 404 _ mockedData []). reflexivity.
Defined.

(** ** Unmounting while the request is pending *)

Lemma no_outcome_lived (evs : list Event) :
  outcomes evs = [] -> outcomes (live evs) = [].
Proof.
  intros Hos. destruct (outcomes_live evs) as [later Hl].
  rewrite Hos in Hl. symmetry in Hl. now apply app_eq_nil in Hl.
Qed.

(** C1 as stated fails: unmount at once, let the aborted [fetch] reject with
    its [AbortError]; the rejection runs the [catch] and the [finally] block
    of the activation that is already torn down, so [setError] and
    [setLoading] are called after the clean-up. *)
Lemma cleanup_then_abort_rejection :
  outcomes [] = [] /\
  calls (exec mount ([] ++ [Unmount])) = [] /\
  calls (exec mount ([] ++ Unmount :: [Settle (Rejected AbortError)])) =
    [setError AbortError; setLoading false] /\
  ~ no_update_after_cleanup.
Proof.
  repeat split. intros Hclaim.
  specialize (Hclaim [] [Settle (Rejected AbortError)] eq_refl).
  discriminate Hclaim.
Qed.

(** C1 (amended): when the consumer is unmounted while [fetch] is pending,
    the clean-up calls [abort] once; no setter is called as long as nothing
    settles, and the state the hook returned stays
    [data = null], [error = null], [loading = true] whatever is delivered
    later; but the abort does not stop [fetchData]: when the pending promise
    then rejects with [R], the [catch] branch calls [setError R] and the
    [finally] branch calls [setLoading false] after the teardown, and these
    two calls are the only ones of the activation. *)
Theorem cleanup_aborts_handlers_still_run
    (evs idle evs' later : list Event) (R : Value) :
  outcomes evs = [] ->
  outcomes idle = [] ->
  abort_calls (exec mount (evs ++ [Unmount])) = 1 /\
  calls (exec mount (evs ++ Unmount :: idle)) = [] /\
  useFetchedData (exec mount (evs ++ Unmount :: later)) = initial_state /\
  calls (exec mount (evs ++ Unmount :: idle ++ Settle (Rejected R) :: evs')) =
    [setError R; setLoading false].
Proof.
  intros Hevs Hidle.
  rewrite aborts_made, !calls_made, hook_returns.
  rewrite deactivated_app, live_app, !outcomes_app. cbn [deactivated live outcomes].
  rewrite outcomes_app. cbn [outcomes].
  rewrite orb_true_r, Hevs, Hidle, (no_outcome_lived _ Hevs).
  cbn [app]. rewrite stage_after_fetch_rejected.
  destruct (deactivated evs); repeat split.
Qed.

Lemma cleanup_aborts_handlers_still_run_witness :
  outcomes [] = [] /\
  outcomes [Unmount] = [] /\
  (abort_calls (exec mount ([] ++ [Unmount])) = 1 /\
   calls (exec mount ([] ++ Unmount :: [Unmount])) = [] /\
   useFetchedData
     (exec mount ([] ++ Unmount :: [Settle (Rejected AbortError)])) =
     initial_state /\
   calls (exec mount
            ([] ++ Unmount :: [Unmount] ++ Settle (Rejected AbortError) :: [])) =
     [setError AbortError; setLoading false]).
Proof.
  split; [reflexivity |]. split; [reflexivity |].
  apply (cleanup_aborts_handlers_still_run [] [Unmount] []
           [Settle (Rejected AbortError)] AbortError); reflexivity.
Defined.

(** * The consumer *)

(** ** Reading members and mapping posts *)

Lemma get_has_members (v : Value) (m : Member) :
  has_members v = true -> get v m = inr (read v m).
Proof. destruct v; cbn; (discriminate || reflexivity). Qed.

Lemma get_no_members (v : Value) (m : Member) :
  has_members v = false -> get v m = inl (cannot_read_properties v).
Proof. destruct v; cbn; (discriminate || reflexivity). Qed.

Lemma truthy_has_members (v : Value) :
  truthy v = true -> has_members v = true.
Proof. destruct v; cbn; (discriminate || reflexivity). Qed.

Lemma post_item_returns (post : Value) :
  has_members post = true -> post_item post = inr (li_of post).
Proof.
  intros Hpost. unfold post_item.
  rewrite !(get_has_members _ _ Hpost). reflexivity.
Qed.

Lemma post_item_throws (post : Value) :
  has_members post = false ->
  post_item post = inl (cannot_read_properties post).
Proof.
  intros Hpost. unfold post_item.
  rewrite (get_no_members _ _ Hpost). reflexivity.
Qed.

Lemma map_items_returns (posts : list Value) :
  forallb has_members posts = true ->
  map_items post_item posts = inr (map li_of posts).
Proof.
  induction posts as [| post posts IH]; cbn [forallb map_items map].
  - reflexivity.
  - intros [Hpost Hposts]%andb_prop.
    rewrite (post_item_returns _ Hpost), (IH Hposts). reflexivity.
Qed.

Lemma map_items_throws (before after : list Value) (post : Value) :
  forallb has_members before = true ->
  has_members post = false ->
  map_items post_item (before ++ post :: after) =
  inl (cannot_read_properties post).
Proof.
  intros Hbefore Hpost.
  induction before as [| b before IH]; cbn [app map_items].
  - rewrite (post_item_throws _ Hpost). reflexivity.
  - cbn [forallb] in Hbefore. apply andb_prop in Hbefore as [Hb Hbefore].
    rewrite (post_item_returns _ Hb), (IH Hbefore). reflexivity.
Qed.

Lemma map_items_first_throw (posts : list Value) :
  forallb has_members posts = false ->
  exists before post after,
    posts = before ++ post :: after /\
    forallb has_members before = true /\
    has_members post = false.
Proof.
  induction posts as [| p posts IH]; cbn [forallb]; [discriminate |].
  destruct (has_members p) eqn:Hp; cbn [andb].
  - intros H. destruct (IH H) as (before & post & after & -> & Hb & Hpost).
    exists (p :: before), post, after. cbn [forallb app]. rewrite Hp, Hb. auto.
  - intros _. exists [], p, posts. auto.
Qed.

(** ** The element [App] returns *)

Lemma App_view_returns (s : HookState) :
  renderable (data s) = true ->
  App_view s =
  inr (App_div (loading_section (loading s)) (error_section (error s))
               (list_section (data s))).
Proof.
  destruct s as [d e l]. unfold renderable, App_view. cbn [data error loading].
  intros Hd.
  assert (He : (if truthy e
                then message <- get e member_message ;;
                     ret (element "p" None undefined
                            [js (str "Error: "); js message])
                else ret (js e)) = (inr (error_section e) : Completion ReactNode)).
  { unfold error_section. destruct (truthy e) eqn:Hte; [| reflexivity].
    rewrite (get_has_members _ _ (truthy_has_members _ Hte)). reflexivity. }
  rewrite He. unfold list_section.
  destruct (truthy d) eqn:Htd; cbn [negb orb] in Hd.
  - destruct d; try discriminate Hd. cbn [map_method].
    rewrite (map_items_returns _ Hd). destruct l; reflexivity.
  - destruct l; reflexivity.
Qed.

Lemma App_view_throws (s : HookState) :
  renderable (data s) = false -> returns (App_view s) = false.
Proof.
  destruct s as [d e l]. unfold renderable, App_view. cbn [data error loading].
  intros Hd. destruct (truthy d) eqn:Htd; cbn [negb orb] in Hd; [| discriminate].
  assert (Hlist : returns (map_method d post_item) = false).
  { destruct d; try reflexivity; try discriminate Htd. cbn [map_method].
    destruct (map_items_first_throw _ Hd) as (b & p0 & a & -> & Hb & Hp).
    rewrite (map_items_throws _ _ _ Hb Hp). reflexivity. }
  destruct (map_method d post_item) as [err | items]; [| discriminate Hlist].
  destruct l, (truthy e); cbn;
    try (destruct (get e member_message)); reflexivity.
Qed.

Lemma no_map_to_call (d e : Value) (l : bool) :
  truthy d = true ->
  is_array d = false ->
  App_view {| data := d; error := e; loading := l |} = inl not_a_function.
Proof.
  intros Htd Harr. unfold App_view.
  assert (Hmap : map_method d post_item = inl not_a_function)
    by (destruct d; (discriminate || reflexivity)).
  rewrite Htd, Hmap.
  destruct l, (truthy e) eqn:Hte; cbn;
    try rewrite (get_has_members _ _ (truthy_has_members _ Hte)); reflexivity.
Qed.

Lemma sections_App_div (a b c : ReactNode) :
  sections (App_div a b c) = element_tag a ++ element_tag b ++ element_tag c.
Proof. cbn. now rewrite app_nil_r. Qed.

(** * Further properties of the hook *)

(** X1: unmounting does not stop [fetchData] and freezes what the hook
    returned: the setter calls and the requests of a run are those of the
    same run with its unmounts left out, and the state the hook returned is
    that of the run cut at its first unmount. *)
Theorem unmount_changes_nothing_else (evs : list Event) :
  useFetchedData (exec mount evs) = useFetchedData (exec mount (live evs)) /\
  calls (exec mount evs) = calls (exec mount (map Settle (outcomes evs))) /\
  requests (exec mount evs) = requests (exec mount (map Settle (outcomes evs))).
Proof.
  rewrite !hook_returns, !calls_made, !requests_made, live_live, outcomes_settle.
  repeat split.
Qed.

(** X2: [fetchData] never ends by throwing, so the promise the effect drops
    at line 28 never rejects: at every point of an activation it is
    suspended at an [await] when the request is unsettled and has returned
    when the request has settled. *)
Theorem fetchData_never_rejects (evs : list Event) :
  match task (exec mount evs) with
  | Return _ => request_settled (outcomes evs) = true
  | Await _ _ => request_settled (outcomes evs) = false
  | Throw _ | Call _ _ => False
  end.
Proof.
  rewrite task_reached.
  destruct (shape_of (outcomes evs)); reflexivity.
Qed.

Lemma succeeded_shape (os : list Settled) (json : Value) :
  stage_after os = Succeeded json ->
  exists response rest, os = Fulfilled response :: Fulfilled json :: rest.
Proof.
  intros Hst. pose proof (shape_of os) as Hshape. rewrite Hst in Hshape.
  inversion Hshape; subst; eauto.
Qed.

(** X3: a payload in the state is the parsed body of a fulfilled request:
    when [data] is not [null], [fetch] fulfilled and the parse of the body
    fulfilled with exactly that value. *)
Theorem data_comes_from_success (evs : list Event) :
  data (useFetchedData (exec mount evs)) <> null ->
  exists response rest,
    outcomes evs =
    Fulfilled response :: Fulfilled (data (useFetchedData (exec mount evs))) :: rest.
Proof.
  rewrite hook_returns. intros Hdata.
  destruct (stage_after (outcomes (live evs))) as [| r | json | e] eqn:Hst;
    cbn in Hdata |- *; try congruence.
  destruct (succeeded_shape _ _ Hst) as (response & rest & Hl).
  destruct (outcomes_live evs) as [later Hevs].
  rewrite Hevs, Hl. cbn. eauto.
Qed.

Lemma data_comes_from_success_witness :
  data (useFetchedData
          (exec mount [Settle (Fulfilled (Response 200));
                       Settle (Fulfilled mockedData)])) <> null /\
  exists response rest,
    outcomes [Settle (Fulfilled (Response 200)); Settle (Fulfilled mockedData)] =
    Fulfilled response ::
    Fulfilled (data (useFetchedData
                       (exec mount [Settle (Fulfilled (Response 200));
                                    Settle (Fulfilled mockedData)]))) :: rest.
Proof.
  split; [discriminate |].
  apply (data_comes_from_success
           [Settle (Fulfilled (Response 200)); Settle (Fulfilled mockedData)]).
  discriminate.
Defined.

(** X4: a failure in the state is the reason of a rejection or the
    [TypeError] of the call [response.json()]: when [error] is not [null],
    [fetch] rejected with exactly that value, or the parse of the body did,
    or [fetch] fulfilled with a value that has no [json] to call and the
    error is the [TypeError] of that call. *)
Theorem error_comes_from_failure (evs : list Event) :
  error (useFetchedData (exec mount evs)) <> null ->
  exists rest,
    outcomes evs = Rejected (error (useFetchedData (exec mount evs))) :: rest \/
    (exists response,
       has_json response = true /\
       outcomes evs =
       Fulfilled response ::
       Rejected (error (useFetchedData (exec mount evs))) :: rest) \/
    (exists response,
       has_json response = false /\
       outcomes evs = Fulfilled response :: rest /\
       error (useFetchedData (exec mount evs)) = json_TypeError response).
Proof.
  rewrite hook_returns. intros Herror.
  destruct (outcomes_live evs) as [later Hevs]. rewrite Hevs.
  destruct (shape_of (outcomes (live evs))); cbn in Herror |- *;
    try congruence; eauto 8.
Qed.

Lemma error_comes_from_failure_witness :
  error (useFetchedData (exec mount [Settle (Fulfilled undefined)])) <> null /\
  exists rest,
    outcomes [Settle (Fulfilled undefined)] =
    Rejected (error (useFetchedData (exec mount [Settle (Fulfilled undefined)])))
    :: rest \/
    (exists response,
       has_json response = true /\
       outcomes [Settle (Fulfilled undefined)] =
       Fulfilled response ::
       Rejected (error (useFetchedData
                          (exec mount [Settle (Fulfilled undefined)]))) :: rest) \/
    (exists response,
       has_json response = false /\
       outcomes [Settle (Fulfilled undefined)] = Fulfilled response :: rest /\
       error (useFetchedData (exec mount [Settle (Fulfilled undefined)])) =
       json_TypeError response).
Proof.
  split; [discriminate |].
  apply (error_comes_from_failure [Settle (Fulfilled undefined)]).
  discriminate.
Defined.

(** X5: an activation calls no setter while the request is unsettled, and
    exactly two once it has settled: [setData] or [setError] first,
    [setLoading false] last. *)
Theorem setters_in_order (evs : list Event) :
  if request_settled (outcomes evs)
  then (exists P, calls (exec mount evs) = [setData P; setLoading false]) \/
       (exists E, calls (exec mount evs) = [setError E; setLoading false])
  else calls (exec mount evs) = [].
Proof.
  rewrite calls_made. destruct (shape_of (outcomes evs)); cbn; eauto.
Qed.

(** X6: a settled request is final, by success as by failure: whatever is
    delivered afterwards, the state, the setter calls, the requests and the
    finished [fetchData] stay as they are. *)
Theorem settled_is_terminal (evs evs' : list Event) :
  request_settled (outcomes evs) = true ->
  useFetchedData (exec mount (evs ++ evs')) = useFetchedData (exec mount evs) /\
  calls (exec mount (evs ++ evs')) = calls (exec mount evs) /\
  requests (exec mount (evs ++ evs')) = requests (exec mount evs) /\
  task (exec mount (evs ++ evs')) = Return tt.
Proof.
  intros Hs.
  rewrite !hook_returns, !calls_made, !requests_made, task_reached.
  rewrite live_app, !outcomes_app, (settled_final _ _ Hs).
  assert (Hcells : stage_after
                     (outcomes (live evs) ++
                      outcomes (if deactivated evs then [] else live evs')) =
                   stage_after (outcomes (live evs))).
  { destruct (deactivated evs) eqn:Hd.
    - cbn. now rewrite app_nil_r.
    - rewrite (live_mounted _ Hd). now apply settled_final. }
  rewrite Hcells. repeat split.
  destruct (stage_after_settled _ Hs) as [[json ->] | [e ->]]; reflexivity.
Qed.

Lemma settled_is_terminal_witness :
  request_settled
    (outcomes [Settle (Fulfilled (Response 200)); Settle (Fulfilled mockedData)])
  = true /\
  (useFetchedData
     (exec mount ([Settle (Fulfilled (Response 200)); Settle (Fulfilled mockedData)]
                  ++ [Settle (Rejected mockedError); Unmount])) =
   useFetchedData
     (exec mount [Settle (Fulfilled (Response 200)); Settle (Fulfilled mockedData)]) /\
   calls
     (exec mount ([Settle (Fulfilled (Response 200)); Settle (Fulfilled mockedData)]
                  ++ [Settle (Rejected mockedError); Unmount])) =
   calls
     (exec mount [Settle (Fulfilled (Response 200)); Settle (Fulfilled mockedData)]) /\
   requests
     (exec mount ([Settle (Fulfilled (Response 200)); Settle (Fulfilled mockedData)]
                  ++ [Settle (Rejected mockedError); Unmount])) =
   requests
     (exec mount [Settle (Fulfilled (Response 200)); Settle (Fulfilled mockedData)]) /\
   task
     (exec mount ([Settle (Fulfilled (Response 200)); Settle (Fulfilled mockedData)]
                  ++ [Settle (Rejected mockedError); Unmount])) = Return tt).
Proof.
  split; [reflexivity |].
  apply (settled_is_terminal
           [Settle (Fulfilled (Response 200)); Settle (Fulfilled mockedData)]
           [Settle (Rejected mockedError); Unmount]).
  reflexivity.
Defined.

(** X19: when [fetch] fulfils, while the consumer is mounted, with a value
    that has no [json] to call ([undefined], as the bare [jest.fn()] of the
    tests gives), the call [response.json()] throws inside the [try]: the
    hook fails at once, without a second [await], with the [TypeError] of
    the call as [error]. *)
Theorem json_call_failure
    (evs : list Event) (response : Value) (rest : list Settled) :
  has_json response = false ->
  outcomes (live evs) = Fulfilled response :: rest ->
  useFetchedData (exec mount evs) =
    {| data := null; error := json_TypeError response; loading := false |} /\
  calls (exec mount evs) =
    [setError (json_TypeError response); setLoading false] /\
  task (exec mount evs) = Return tt.
Proof.
  intros Hj Hos.
  rewrite hook_returns, calls_made, task_reached.
  destruct (outcomes_live evs) as [later Hevs]. rewrite Hevs, Hos. cbn [app].
  now rewrite !(stage_after_no_json _ _ Hj).
Qed.

Lemma json_call_failure_witness :
  has_json undefined = false /\
  outcomes (live [Settle (Fulfilled undefined)]) = Fulfilled undefined :: [] /\
  (useFetchedData (exec mount [Settle (Fulfilled undefined)]) =
     {| data := null; error := json_TypeError undefined; loading := false |} /\
   calls (exec mount [Settle (Fulfilled undefined)]) =
     [setError (json_TypeError undefined); setLoading false] /\
   task (exec mount [Settle (Fulfilled undefined)]) = Return tt).
Proof.
  split; [reflexivity |]. split; [reflexivity |].
  apply (json_call_failure [Settle (Fulfilled undefined)] undefined []);
    reflexivity.
Defined.

(** * Properties of the consumer *)

(** ** [App] on its own, whatever the hook returns *)

(** X8: [App] returns an element exactly for the payloads it can list:
    a falsy payload, or an array none of whose items is [null] or
    [undefined]; for every other payload building the element throws. *)
Theorem App_view_returns_iff_renderable (s : HookState) :
  returns (App_view s) = renderable (data s).
Proof.
  destruct (renderable (data s)) eqn:Hr.
  - now rewrite (App_view_returns _ Hr).
  - now apply App_view_throws.
Qed.

(** X9: a truthy payload that is no array (an object, a non-empty string,
    a non-zero number, [true]) makes [App] throw: there is no [map] to
    call, whatever [error] and [loading] are. *)
Theorem App_view_not_an_array (s : HookState) :
  truthy (data s) = true ->
  is_array (data s) = false ->
  App_view s = inl not_a_function.
Proof.
  destruct s as [d e l]. apply no_map_to_call.
Qed.

Lemma App_view_not_an_array_witness :
  truthy (data {| data := object []; error := null; loading := false |}) = true /\
  is_array (data {| data := object []; error := null; loading := false |}) = false /\
  App_view {| data := object []; error := null; loading := false |} =
  inl not_a_function.
Proof.
  split; [reflexivity |]. split; [reflexivity |].
  apply (App_view_not_an_array
           {| data := object []; error := null; loading := false |});
    reflexivity.
Defined.

(** X10: a [null] or [undefined] item in the payload makes [App] throw at
    the first such item, reading a member of it; the posts before it do not
    help. *)
Theorem App_view_missing_post
    (before after : list Value) (post e : Value) (l : bool) :
  forallb has_members before = true ->
  has_members post = false ->
  App_view {| data := array (before ++ post :: after); error := e; loading := l |} =
  inl (cannot_read_properties post).
Proof.
  intros Hbefore Hpost. unfold App_view. cbn [truthy map_method].
  rewrite (map_items_throws _ _ _ Hbefore Hpost).
  destruct l, (truthy e) eqn:Hte; cbn;
    try rewrite (get_has_members _ _ (truthy_has_members _ Hte)); reflexivity.
Qed.

Lemma App_view_missing_post_witness :
  forallb has_members [object [("id", number 1); ("title", str "mock title")]]
  = true /\
  has_members null = false /\
  App_view
    {| data := array ([object [("id", number 1); ("title", str "mock title")]]
                      ++ null :: []);
       error := null; loading := false |} =
  inl (cannot_read_properties null).
Proof.
  split; [reflexivity |]. split; [reflexivity |].
  apply (App_view_missing_post
           [object [("id", number 1); ("title", str "mock title")]] []
           null null false); reflexivity.
Defined.

(** X11: whenever [App] returns, each of its three children depends on its
    own field alone: the first is the loading text exactly when [loading]
    is set, the second the error text (with the [message] of the error)
    exactly when [error] is truthy, the third the list exactly when [data]
    is truthy; a child that is no section is the falsy value itself.  [App]
    does not keep the three apart: they can all be there at once. *)
Theorem sections_are_independent (s : HookState) (n : ReactNode) :
  App_view s = inr n ->
  n = App_div
        (if loading s then Loading_p else js (boolean false))
        (if truthy (error s)
         then Error_p (read (error s) member_message)
         else js (error s))
        (if truthy (data s)
         then posts_ul match data s with
                       | array items => map li_of items
                       | _ => []
                       end
         else js (data s)).
Proof.
  intros Hn.
  assert (Hr : renderable (data s) = true).
  { destruct (renderable (data s)) eqn:Hr; [reflexivity |].
    apply App_view_throws in Hr. rewrite Hn in Hr. discriminate Hr. }
  rewrite (App_view_returns _ Hr) in Hn. now injection Hn as <-.
Qed.

Lemma sections_are_independent_witness :
  App_view {| data := mockedData; error := mockedError; loading := true |} =
  inr (App_div Loading_p (Error_p (str "mocked error"))
               (posts_ul [element "li" None (number 1) [js (str "mock title")]])) /\
  App_div Loading_p (Error_p (str "mocked error"))
          (posts_ul [element "li" None (number 1) [js (str "mock title")]]) =
  App_div
    (if loading {| data := mockedData; error := mockedError; loading := true |}
     then Loading_p else js (boolean false))
    (if truthy (error {| data := mockedData; error := mockedError;
                         loading := true |})
     then Error_p (read (error {| data := mockedData; error := mockedError;
                                  loading := true |}) member_message)
     else js (error {| data := mockedData; error := mockedError;
                       loading := true |}))
    (if truthy (data {| data := mockedData; error := mockedError;
                        loading := true |})
     then posts_ul
            match data {| data := mockedData; error := mockedError;
                          loading := true |} with
            | array items => map li_of items
            | _ => []
            end
     else js (data {| data := mockedData; error := mockedError;
                      loading := true |})).
Proof.
  split; [reflexivity |].
  apply (sections_are_independent
           {| data := mockedData; error := mockedError; loading := true |}).
  reflexivity.
Defined.

(** ** [App] over the hook *)

(** X12: as long as the request has not settled, [App] returns the loading
    text and nothing else. *)
Theorem App_while_pending (evs : list Event) :
  request_settled (outcomes evs) = false ->
  App (exec mount evs) = inr (App_div Loading_p (js null) (js null)).
Proof.
  intros Hs. unfold App.
  rewrite (hook_while_pending evs Hs). reflexivity.
Qed.

Lemma App_while_pending_witness :
  request_settled (outcomes [Settle (Fulfilled (Response 200)); Unmount]) = false /\
  App (exec mount [Settle (Fulfilled (Response 200)); Unmount]) =
  inr (App_div Loading_p (js null) (js null)).
Proof.
  split; [reflexivity |].
  apply (App_while_pending [Settle (Fulfilled (Response 200)); Unmount]).
  reflexivity.
Defined.

(** X13: when, while the consumer is mounted, the body parses to an array
    of posts none of which is [null] or [undefined], [App] returns the list
    alone: one [li] per post, in the order of the array, keyed by the [id]
    of the post and holding its [title] ([undefined] for a member the post
    lacks); an empty array gives an empty [ul]. *)
Theorem App_after_success
    (evs : list Event) (response : Value) (posts : list Value)
    (rest : list Settled) :
  forallb has_members posts = true ->
  has_json response = true ->
  outcomes (live evs) = Fulfilled response :: Fulfilled (array posts) :: rest ->
  App (exec mount evs) =
  inr (App_div (js (boolean false)) (js null) (posts_ul (map li_of posts))).
Proof.
  intros Hposts Hj Hos. unfold App.
  rewrite (hook_after_success _ _ _ _ Hj Hos), App_view_returns; [reflexivity |].
  exact Hposts.
Qed.

Lemma App_after_success_witness :
  forallb has_members
    [object [("body", str "mocked body"); ("id", number 1);
             ("title", str "mock title"); ("userId", number 1)]] = true /\
  has_json (Response 200) = true /\
  outcomes (live [Settle (Fulfilled (Response 200));
                  Settle (Fulfilled mockedData)]) =
  Fulfilled (Response 200) :: Fulfilled mockedData :: [] /\
  App (exec mount [Settle (Fulfilled (Response 200)); Settle (Fulfilled mockedData)]) =
  inr (App_div (js (boolean false)) (js null)
         (posts_ul
            (map li_of
               [object [("body", str "mocked body"); ("id", number 1);
                        ("title", str "mock title"); ("userId", number 1)]]))).
Proof.
  split; [reflexivity |]. split; [reflexivity |]. split; [reflexivity |].
  apply (App_after_success _ (Response 200) _ []); reflexivity.
Defined.

(** X14: when, while the consumer is mounted, [fetch] fulfils (with any
    response that has a [json], a 404 for one) and the body parses to a
    truthy value that is no array, [App] throws: the hook stores the body
    as [data] and [App] calls its [map]. *)
Theorem App_after_non_array_body
    (evs : list Event) (response P : Value) (rest : list Settled) :
  truthy P = true ->
  is_array P = false ->
  has_json response = true ->
  outcomes (live evs) = Fulfilled response :: Fulfilled P :: rest ->
  App (exec mount evs) = inl not_a_function.
Proof.
  intros HtP Harr Hj Hos. unfold App.
  rewrite (hook_after_success _ _ _ _ Hj Hos).
  now apply no_map_to_call.
Qed.

Lemma App_after_non_array_body_witness :
  truthy (object []) = true /\
  is_array (object []) = false /\
  has_json (Response 404) = true /\
  outcomes (live [Settle (Fulfilled (Response 404));
                  Settle (Fulfilled (object []))]) =
  Fulfilled (Response 404) :: Fulfilled (object []) :: [] /\
  App (exec mount [Settle (Fulfilled (Response 404));
                   Settle (Fulfilled (object []))]) = inl not_a_function.
Proof.
  split; [reflexivity |]. split; [reflexivity |]. split; [reflexivity |].
  split; [reflexivity |].
  apply (App_after_non_array_body _ (Response 404) (object []) []); reflexivity.
Defined.

(** X15: when, while the consumer is mounted, the request fails with a
    truthy reason, [App] returns the error text alone, made of ["Error: "]
    and the [message] member of the reason: the message of an error object,
    [undefined] for a reason that has none. *)
Theorem App_after_failure (evs : list Event) (E : Value) (rest : list Settled) :
  truthy E = true ->
  outcomes (live evs) = Rejected E :: rest \/
  (exists response,
     has_json response = true /\
     outcomes (live evs) = Fulfilled response :: Rejected E :: rest) ->
  App (exec mount evs) =
  inr (App_div (js (boolean false)) (Error_p (read E member_message)) (js null)).
Proof.
  intros HtE Hos. unfold App.
  rewrite (hook_after_failure _ _ _ Hos), App_view_returns; [| reflexivity].
  cbn [data error loading]. unfold error_section. now rewrite HtE.
Qed.

Lemma App_after_failure_witness :
  truthy mockedError = true /\
  (outcomes (live [Settle (Rejected mockedError)]) = Rejected mockedError :: [] \/
   (exists response,
      has_json response = true /\
      outcomes (live [Settle (Rejected mockedError)]) =
      Fulfilled response :: Rejected mockedError :: [])) /\
  App (exec mount [Settle (Rejected mockedError)]) =
  inr (App_div (js (boolean false))
               (Error_p (read mockedError member_message)) (js null)).
Proof.
  split; [reflexivity |]. split; [left; reflexivity |].
  apply (App_after_failure [Settle (Rejected mockedError)] mockedError []);
    [reflexivity | left; reflexivity].
Defined.

(** X16: when, while the consumer is mounted, the request fails with a
    falsy reason ([null], [undefined], [false], [0], the empty string),
    [App] returns no section at all: no loading text, no error text, no
    list; its second child is the reason itself. *)
Theorem App_after_falsy_failure
    (evs : list Event) (E : Value) (rest : list Settled) :
  truthy E = false ->
  outcomes (live evs) = Rejected E :: rest \/
  (exists response,
     has_json response = true /\
     outcomes (live evs) = Fulfilled response :: Rejected E :: rest) ->
  App (exec mount evs) = inr (App_div (js (boolean false)) (js E) (js null)) /\
  sections (App_div (js (boolean false)) (js E) (js null)) = [].
Proof.
  intros HtE Hos. unfold App. split; [| reflexivity].
  rewrite (hook_after_failure _ _ _ Hos), App_view_returns; [| reflexivity].
  cbn [data error loading]. unfold error_section. now rewrite HtE.
Qed.

Lemma App_after_falsy_failure_witness :
  truthy undefined = false /\
  (outcomes (live [Settle (Rejected undefined)]) = Rejected undefined :: [] \/
   (exists response,
      has_json response = true /\
      outcomes (live [Settle (Rejected undefined)]) =
      Fulfilled response :: Rejected undefined :: [])) /\
  (App (exec mount [Settle (Rejected undefined)]) =
   inr (App_div (js (boolean false)) (js undefined) (js null)) /\
   sections (App_div (js (boolean false)) (js undefined) (js null)) = []).
Proof.
  split; [reflexivity |]. split; [left; reflexivity |].
  apply (App_after_falsy_failure [Settle (Rejected undefined)] undefined []);
    [reflexivity | left; reflexivity].
Defined.

(** X17: over the hook [App] never returns two sections at once: in every
    state an activation reaches, at most one of the loading text, the error
    text and the list is there. *)
Theorem App_one_section_at_most (evs : list Event) (n : ReactNode) :
  App (exec mount evs) = inr n ->
  length (sections n) <= 1.
Proof.
  unfold App. rewrite hook_returns. intros Hn.
  assert (Hr : renderable
                 (data (stage_cells (stage_after (outcomes (live evs))))) = true).
  { destruct (renderable _) eqn:Hr; [reflexivity |].
    apply App_view_throws in Hr. rewrite Hn in Hr. discriminate Hr. }
  rewrite (App_view_returns _ Hr) in Hn. injection Hn as <-.
  rewrite sections_App_div.
  unfold loading_section, error_section, list_section.
  destruct (stage_after (outcomes (live evs))) as [| response | json | e];
    cbn [stage_cells initial_state data error loading truthy].
  - cbn. constructor.
  - cbn. constructor.
  - destruct (truthy json); cbn; repeat constructor.
  - destruct (truthy e); cbn; repeat constructor.
Qed.

Lemma App_one_section_at_most_witness :
  App (exec mount [Settle (Rejected mockedError)]) =
  inr (App_div (js (boolean false)) (Error_p (str "mocked error")) (js null)) /\
  length (sections
            (App_div (js (boolean false)) (Error_p (str "mocked error")) (js null)))
  <= 1.
Proof.
  split; [reflexivity |].
  apply (App_one_section_at_most [Settle (Rejected mockedError)]).
  reflexivity.
Defined.

(** X18: when, while the consumer is mounted, the body parses to a falsy
    value ([null], [false], [0], the empty string), the request counts as a
    success and [App] returns no section at all; its third child is the
    body itself. *)
Theorem App_after_falsy_body
    (evs : list Event) (response P : Value) (rest : list Settled) :
  truthy P = false ->
  has_json response = true ->
  outcomes (live evs) = Fulfilled response :: Fulfilled P :: rest ->
  App (exec mount evs) = inr (App_div (js (boolean false)) (js null) (js P)) /\
  sections (App_div (js (boolean false)) (js null) (js P)) = [].
Proof.
  intros HtP Hj Hos. unfold App. split; [| reflexivity].
  rewrite (hook_after_success _ _ _ _ Hj Hos), App_view_returns.
  - cbn [data error loading]. unfold list_section. now rewrite HtP.
  - cbn [data]. unfold renderable. now rewrite HtP.
Qed.

Lemma App_after_falsy_body_witness :
  truthy null = false /\
  has_json (Response 200) = true /\
  outcomes (live [Settle (Fulfilled (Response 200)); Settle (Fulfilled null)]) =
  Fulfilled (Response 200) :: Fulfilled null :: [] /\
  (App (exec mount [Settle (Fulfilled (Response 200)); Settle (Fulfilled null)]) =
   inr (App_div (js (boolean false)) (js null) (js null)) /\
   sections (App_div (js (boolean false)) (js null) (js null)) = []).
Proof.
  split; [reflexivity |]. split; [reflexivity |]. split; [reflexivity |].
  apply (App_after_falsy_body _ (Response 200) null []); reflexivity.
Defined.

(** ** The test suite of [App], replayed *)

(** "should render loading text": the hook is mocked to return the initial
    values. *)
Example test_should_render_loading_text :
  App_view {| data := null; error := null; loading := true |} =
  inr (App_div Loading_p (js null) (js null)).
Proof. reflexivity. Qed.

(** "should render list of todos", "should not render loading text" *)
Example test_should_render_list :
  App_view {| data := mockedData; error := null; loading := false |} =
  inr (App_div (js (boolean false)) (js null)
         (posts_ul [element "li" None (number 1) [js (str "mock title")]])).
Proof. reflexivity. Qed.

(** "should render the error message" *)
Example test_should_render_the_error_message :
  App_view {| data := null; error := mockedError; loading := false |} =
  inr (App_div (js (boolean false)) (Error_p (str "mocked error")) (js null)).
Proof. reflexivity. Qed.
